(** * A shallow embedding of lib/git/async/pool.py

    The thread pool of GitPython's async package: [TaskNode] (a node of
    the task graph), [RPoolChannel] (the read handle that triggers
    scheduling) and [ThreadPool] (graph, work queue, workers and the
    demand-driven scheduling walk). *)

From Stdlib Require Import ZArith Lia String.
From stdpp Require Import base list gmap.

Set Warnings "-register-all".
Open Scope Z_scope.

(** ** Python values and exceptions *)

(** The objects that flow through channels and callbacks. *)
Inductive pyobj :=
| PNone
| PInt (z : Z)
| PList (l : list pyobj).

(** The exceptions the embedded code can raise.  [UserError] stands for a
    user exception deriving from [Exception]; [BaseOnly] for one that
    derives from [BaseException] only (KeyboardInterrupt, SystemExit,
    GeneratorExit). *)
Inductive exc :=
| IOError (msg : string)
| TypeError
| AttributeError
| IndexError
| KeyError
| UserError (code : Z)
| BaseOnly (code : Z).

(** [isinstance(e, Exception)], the test of an [except Exception] clause. *)
Definition is_Exception (e : exc) : bool :=
  match e with
  | BaseOnly _ => false
  | _ => true
  end.

(** ** A state and error monad

    [M S A] threads the mutable objects [S] and either returns a value or
    raises; the state reached before a raise is kept, as in Python. *)
Inductive res (A : Type) :=
| Ok (a : A)
| Raise (e : exc).
Arguments Ok {A} a.
Arguments Raise {A} e.

Definition M (S A : Type) : Type := S -> S * res A.

Global Instance M_ret S : MRet (M S) := fun A a s => (s, Ok a).
Global Instance M_bind S : MBind (M S) := fun A B k m s =>
  match m s with
  | (s', Ok a) => k a s'
  | (s', Raise e) => (s', Raise e)
  end.

Definition get {S} : M S S := fun s => (s, Ok s).
Definition put {S} (s : S) : M S unit := fun _ => (s, Ok tt).
Definition modify {S} (f : S -> S) : M S unit := fun s => (f s, Ok tt).
Definition throw {S A} (e : exc) : M S A := fun s => (s, Raise e).
Definition lift {S A} (r : res A) : M S A := fun s => (s, r).

(** [try: m except Exception, e: h(e)] *)
Definition try_except {S A} (m : M S A) (h : exc -> M S A) : M S A := fun s =>
  match m s with
  | (s', Raise e) => if is_Exception e then h e s' else (s', Raise e)
  | r => r
  end.

(** [for x in l: f(x)] *)
Fixpoint for_each {S A} (l : list A) (f : A -> M S unit) : M S unit :=
  match l with
  | [] => mret tt
  | x :: l' => f x ;; for_each l' f
  end.

(** ** Channels

    Modelled from the spec: the channel module (channel.py) is not part of
    the sources.  A channel is a FIFO buffer whose write end can be closed.
    [read(count)] takes up to [count] buffered items; a count below 1 takes
    all of them (the comment at pool.py:79, "which is also the case if
    count is 0").  Writing to a closed channel fails with an I/O error
    ("after done ... no further items appear"); closing is idempotent. *)
Record wchan := mkWChan {
  wbuf : list pyobj;
  closed : bool
}.

Definition chan_read (count : Z) (buf : list pyobj) : list pyobj * list pyobj :=
  if count <? 1 then (buf, [])
  else (take (Z.to_nat count) buf, drop (Z.to_nat count) buf).

Definition chan_write (v : pyobj) (w : wchan) : res wchan :=
  if closed w then Raise (IOError "Cannot write to a closed channel")
  else Ok (mkWChan (wbuf w ++ [v]) false).

Definition chan_close (w : wchan) : wchan := mkWChan (wbuf w) true.

Definition chan_size (w : wchan) : Z := Z.of_nat (length (wbuf w)).

(** ** TaskNode *)

(** The slots of a [TaskNode].  [in_rc] is the buffer of the input
    channel; [in_src] is [Some] of the task behind [in_rc] when [in_rc] is
    an [RPoolChannel], of the pool the task is given to (an input of
    another pool is not modelled).  [_out_wc] is [None] until [add_task]
    binds it.  [pool_ref] tells whether [_pool_ref] holds a reference to
    that pool ([true]) or is still [None] ([false]). *)
Record task := mkTask {
  in_rc : list pyobj;
  in_src : option nat;
  out_wc : option wchan;
  pool_ref : bool;
  exc_ : option exc;
  fun_ : pyobj -> res pyobj;
  min_count : option Z;
  max_chunksize : Z;
  apply_single : bool
}.

(** [TaskNode.__init__(in_rc, fun, apply_single=True)] *)
Definition new_task (in_buf : list pyobj) (in_src : option nat)
    (f : pyobj -> res pyobj) (apply_single : bool) : task :=
  mkTask in_buf in_src None false None f None 0 apply_single.

Definition set_in_rc (b : list pyobj) (t : task) : task :=
  mkTask b (in_src t) (out_wc t) (pool_ref t) (exc_ t) (fun_ t)
    (min_count t) (max_chunksize t) (apply_single t).
Definition set_out_wc (w : option wchan) (t : task) : task :=
  mkTask (in_rc t) (in_src t) w (pool_ref t) (exc_ t) (fun_ t)
    (min_count t) (max_chunksize t) (apply_single t).
Definition set_exc (e : option exc) (t : task) : task :=
  mkTask (in_rc t) (in_src t) (out_wc t) (pool_ref t) e (fun_ t)
    (min_count t) (max_chunksize t) (apply_single t).

(** [self._out_wc]: reading an attribute of [None] is an AttributeError. *)
Definition get_out_wc : M task wchan := fun t =>
  match out_wc t with
  | Some w => (t, Ok w)
  | None => (t, Raise AttributeError)
  end.

(** [is_done]: [return self._out_wc.closed] *)
Definition is_done : M task bool := w ← get_out_wc; mret (closed w).

(** [set_done]: [self._out_wc.close()] *)
Definition set_done : M task unit :=
  w ← get_out_wc; modify (set_out_wc (Some (chan_close w))).

(** [error]: [return self._exc] *)
Definition error : M task (option exc) := t ← get; mret (exc_ t).

(** [self._out_wc.write(v)] *)
Definition write_out (v : pyobj) : M task unit :=
  w ← get_out_wc; w' ← lift (chan_write v w); modify (set_out_wc (Some w')).

(** [items = read(count)] on the input channel *)
Definition read_input (count : Z) : M task (list pyobj) := fun t =>
  let '(items, rest) := chan_read count (in_rc t) in
  (set_in_rc rest t, Ok items).

(** [read = self.in_rc.read; if isinstance(self.in_rc, RPoolChannel) and
    self.in_rc._pool is self._pool_ref(): read = self.in_rc._read]: for an
    [RPoolChannel] input, calling a [_pool_ref] that is [None] is a
    TypeError; otherwise the input is read as a plain channel. *)
Definition choose_read : M task unit := fun t =>
  match in_src t with
  | Some _ => if pool_ref t then (t, Ok tt) else (t, Raise TypeError)
  | None => (t, Ok tt)
  end.

(** [TaskNode.process(count)] *)
Definition process (count : Z) : M task unit :=
  t ← get;
  match out_wc t with
  | None => throw (IOError "Cannot work in uninitialized task")
  | Some _ =>
      choose_read ;;
      items ← read_input count;
      try_except
        (if apply_single t then
           for_each items (fun item => v ← lift (fun_ t item); write_out v)
         else
           (v ← lift (fun_ t (PList items)); write_out v))
        (fun e => modify (set_exc (Some e)) ;; set_done) ;;
      if negb (Z.of_nat (length items) =? count) then set_done else mret tt
  end.

(** ** ThreadPool *)

(** The slots of a [ThreadPool].  Tasks are objects with an identity: the
    [task] record of each identity is kept in [tasks].  The graph [_tasks]
    is its node list [nodes] and its edges [edges] (input task, consumer
    task).  [_workers] is represented by the number of worker threads in
    the list, and [stopped] by how many threads at the front of the list
    [stop_and_join] has stopped; [_queue] by its FIFO contents: a job
    [(task.process, count)] is the pair of the task's identity and
    [count]. *)
Record pool := mkPool {
  tasks : gmap nat task;
  nodes : list nat;
  edges : list (nat * nat);
  consumed : list nat;
  workers : nat;
  stopped : nat;
  queue : list (nat * Z);
  ordered_tasks_cache : gmap nat (list nat)
}.

Definition set_tasks (x : gmap nat task) (p : pool) : pool :=
  mkPool x (nodes p) (edges p) (consumed p) (workers p) (stopped p) (queue p)
    (ordered_tasks_cache p).
Definition set_nodes (x : list nat) (p : pool) : pool :=
  mkPool (tasks p) x (edges p) (consumed p) (workers p) (stopped p) (queue p)
    (ordered_tasks_cache p).
Definition set_edges (x : list (nat * nat)) (p : pool) : pool :=
  mkPool (tasks p) (nodes p) x (consumed p) (workers p) (stopped p) (queue p)
    (ordered_tasks_cache p).
Definition set_consumed (x : list nat) (p : pool) : pool :=
  mkPool (tasks p) (nodes p) (edges p) x (workers p) (stopped p) (queue p)
    (ordered_tasks_cache p).
Definition set_workers (x : nat) (p : pool) : pool :=
  mkPool (tasks p) (nodes p) (edges p) (consumed p) x (stopped p) (queue p)
    (ordered_tasks_cache p).
Definition set_stopped (x : nat) (p : pool) : pool :=
  mkPool (tasks p) (nodes p) (edges p) (consumed p) (workers p) x (queue p)
    (ordered_tasks_cache p).
Definition set_queue (x : list (nat * Z)) (p : pool) : pool :=
  mkPool (tasks p) (nodes p) (edges p) (consumed p) (workers p) (stopped p) x
    (ordered_tasks_cache p).

(** [ThreadPool.__init__(size=0)]: the argument is not used. *)
Definition ThreadPool_init (size : Z) : pool :=
  mkPool ∅ [] [] [] 0 0 [] ∅.

(** Run an operation of the task object with identity [tid]. *)
Definition at_task {A} (tid : nat) (m : M task A) : M pool A := fun p =>
  match tasks p !! tid with
  | Some t =>
      let '(t', r) := m t in (set_tasks (<[tid := t']> (tasks p)) p, r)
  | None => (p, Raise KeyError)
  end.

(** [self._queue.put(job)] *)
Definition enqueue (job : nat * Z) : M pool unit :=
  modify (fun p => set_queue (queue p ++ [job]) p).

(** [ThreadPool._queue_feeder_visitor(task, count)] *)
Definition queue_feeder_visitor (tid : nat) (count : Z) : M pool bool :=
  e ← at_task tid error;
  (match e with Some _ => mret true | None => at_task tid is_done end)
  ≫= fun d : bool =>
  (if d then modify (fun p => set_consumed (consumed p ++ [tid]) p)
   else mret tt) ;;
  t ← at_task tid get;
  let count := match min_count t with Some m => m | None => count end in
  p ← get;
  (if bool_decide (workers p <> 0%nat) then
    ((if count <? 1 then mret true
      else w ← at_task tid get_out_wc; mret (chan_size w <? count))
     ≫= fun sched : bool =>
     if sched then
       (if negb (max_chunksize t =? 0) then
          let chunksize := count / max_chunksize t in
          let remainder := count - chunksize * max_chunksize t in
          for_each (repeat tt (Z.to_nat chunksize))
            (fun _ => enqueue (tid, chunksize)) ;;
          (if negb (remainder =? 0) then enqueue (tid, remainder) else mret tt)
        else enqueue (tid, count))
     else mret tt)
   else at_task tid (process count)) ;;
  mret true.

(** The input neighbours of a node. *)
Definition in_nodes (p : pool) (n : nat) : list nat :=
  map fst (filter (fun e => e.2 = n) (edges p)).

(** Modelled from the spec: graph.py is not part of the sources.
    [visit_input_inclusive_depth_first(start, visitor)] visits [start] and
    every node reachable from it over input edges, depth first, each once,
    sources before their consumers; [dfs_order] lists that order. *)
Fixpoint dfs_order (fuel : nat) (ins : nat -> list nat) (n : nat)
    (acc : list nat) : list nat :=
  match fuel with
  | O => acc
  | S f =>
      if bool_decide (n ∈ acc) then acc
      else foldl (fun a m => dfs_order f ins m a) acc (ins n) ++ [n]
  end.

(** The scheduling walk of [_prepare_processing(task, count)]: the visitor
    called with the same [count] on every visited node. *)
Definition prepare_walk (tid : nat) (count : Z) : M pool unit := fun p =>
  for_each (dfs_order (S (length (nodes p))) (in_nodes p) tid [])
    (fun n => queue_feeder_visitor n count ;; mret tt) p.

(** [ThreadPool.add_task(task)]: [tid] is the identity of the task object.
    After [task._out_wc = wc] (a new, open, empty channel), the statement
    [task._pool_ref = weakref.ref(self)] raises a TypeError: the
    [__slots__] of [ThreadPool] have no [__weakref__] entry, so a
    [ThreadPool] cannot be weakly referenced.  [add_node], [add_edge] and
    the [return rc] are never reached.  The [RPoolChannel] built before is
    dropped; what its [__del__] does depends on reference counts and is not
    modelled. *)
Definition add_task (tid : nat) (t : task) : M pool nat :=
  modify (fun p => set_tasks
    (<[tid := set_out_wc (Some (mkWChan [] false)) t]> (tasks p)) p) ;;
  throw TypeError.

(** The draining loop of [set_pool_size(0)]:
    [while not queue.empty(): try: taskmethod, count = queue.get(False);
    taskmethod(count) except Queue.Empty: continue].  Evaluating the
    handler's [Queue.Empty] (an attribute the class [Queue] lacks) turns
    any exception of a job into an AttributeError.  The loop only pops, so
    the length of the queue bounds it. *)
Fixpoint drain (fuel : nat) : M pool unit := fun p =>
  match fuel, queue p with
  | S f, (tid, c) :: js =>
      match at_task tid (process c) (set_queue js p) with
      | (p', Ok _) => drain f p'
      | (p', Raise _) => (p', Raise AttributeError)
      end
  | _, _ => (p, Ok tt)
  end.

(** [ThreadPool.set_pool_size(size=0)]: new [WorkerThread]s are appended,
    or the first [del_count] workers are stopped and removed.  With
    [size < 0], [del_count] exceeds the length of the list: every worker is
    stopped, then [self._workers[cur]] raises an IndexError before the
    [del]. *)
Definition set_pool_size (size : Z) : M pool unit :=
  p ← get;
  let cur := Z.of_nat (workers p) in
  (if cur <? size then modify (set_workers (Z.to_nat size))
   else if size <? cur then
     (if cur - size <=? cur then
        modify (fun q => set_stopped (Nat.sub (stopped q) (Z.to_nat (cur - size)))
                           (set_workers (Z.to_nat size) q))
      else modify (set_stopped (workers p)) ;; throw IndexError)
   else mret tt) ;;
  (if size =? 0 then p ← get; drain (length (queue p)) else mret tt).

(** ** RPoolChannel *)

(** A Python callable: the number of its positional parameters and its
    body.  Calling it with another number of arguments is a TypeError. *)
Record callable := mkCallable {
  c_arity : nat;
  c_body : list pyobj -> res pyobj
}.

Definition call (f : callable) (args : list pyobj) : res pyobj :=
  if Nat.eqb (length args) (c_arity f) then c_body f args else Raise TypeError.

(** The slots of an [RPoolChannel]: its task (by identity) and the two
    hooks; [None] is the uninstalled hook, a falsy [self._pre_cb]. *)
Record rpool_channel := mkRPoolChannel {
  rc_task : nat;
  pre_cb : option callable;
  post_cb : option callable
}.

(** The defaults of [set_pre_cb(fun = lambda count: None)] and
    [set_post_cb(fun = lambda item: item)]. *)
Definition default_pre_cb : callable := mkCallable 1 (fun _ => Ok PNone).
Definition default_post_cb : callable :=
  mkCallable 1 (fun args => match args with [x] => Ok x | _ => Raise TypeError end).

Definition set_pre_cb (f : option callable) (ch : rpool_channel) : rpool_channel :=
  mkRPoolChannel (rc_task ch) f (post_cb ch).
Definition set_post_cb (f : option callable) (ch : rpool_channel) : rpool_channel :=
  mkRPoolChannel (rc_task ch) (pre_cb ch) f.

Section RPoolChannelRead.
Context {S : Type}.
(** [self._pool._prepare_processing(task, count)] *)
Variable prepare_processing : nat -> Z -> M S unit.
(** [RChannel.read(self, count, block, timeout)] *)
Variable raw_read : Z -> bool -> option Z -> M S (list pyobj).

(** [RPoolChannel.read(count=1, block=False, timeout=None)]; the body
    ends without a [return], so the call evaluates to [None]. *)
Definition read (ch : rpool_channel) (count : Z) (block : bool)
    (timeout : option Z) : M S pyobj :=
  (match pre_cb ch with
   | Some f => lift (call f []) ;; mret tt
   | None => mret tt
   end) ;;
  prepare_processing (rc_task ch) count ;;
  items ← raw_read count block timeout;
  (match post_cb ch with
   | Some f => lift (call f [PList items]) ;; mret tt
   | None => mret tt
   end) ;;
  mret PNone.

(** [RPoolChannel._read]: the underlying read, without scheduling. *)
Definition read_direct (count : Z) (block : bool) (timeout : option Z)
    : M S pyobj :=
  items ← raw_read count block timeout; mret (PList items).
End RPoolChannelRead.

(** ** Pool operations *)

(** The operations of the pool's interface and of its scheduler. *)
Inductive pool_op :=
| AddTask (tid : nat) (t : task)
| PrepareWalk (tid : nat) (count : Z)
| ProcessJob (tid : nat) (count : Z)
| SetPoolSize (size : Z).

Definition run_op (o : pool_op) : M pool unit :=
  match o with
  | AddTask tid t => add_task tid t ;; mret tt
  | PrepareWalk tid count => prepare_walk tid count
  | ProcessJob tid count => at_task tid (process count)
  | SetPoolSize size => set_pool_size size
  end.

Fixpoint run_ops (os : list pool_op) : M pool unit :=
  match os with
  | [] => mret tt
  | o :: os' => run_op o ;; run_ops os'
  end.

Definition is_set_pool_size (o : pool_op) : bool :=
  match o with SetPoolSize _ => true | _ => false end.

(** ** Sample objects *)

Definition identity_fun (v : pyobj) : res pyobj := Ok v.

(** An initialized task (identity 0) over the input [1; 2]. *)
Definition sample_task (k : Z) (mc : option Z) (done : bool) : task :=
  mkTask [PInt 1; PInt 2] None (Some (mkWChan [] done)) true None
    identity_fun mc k true.

(** A pool holding only that task, with [w] workers and an empty queue. *)
Definition sample_pool (w : nat) (t : task) : pool :=
  mkPool (<[0%nat := t]> ∅) [0%nat] [] [] w 0 [] ∅.

(** ** Theorems *)

Lemma bind_ok {S A B} (m : M S A) (k : A -> M S B) (s s' : S) (a : A) :
  m s = (s', Ok a) -> (m ≫= k) s = k a s'.
Proof. intros H. cbv [mbind M_bind]. rewrite H. reflexivity. Qed.

Lemma bind_raise {S A B} (m : M S A) (k : A -> M S B) (s s' : S) (e : exc) :
  m s = (s', Raise e) -> (m ≫= k) s = (s', Raise e).
Proof. intros H. cbv [mbind M_bind]. rewrite H. reflexivity. Qed.

(** [process] reads its input when the input is a plain channel, or an
    [RPoolChannel] while [_pool_ref] is set. *)
Lemma choose_read_ok (t : task) :
  in_src t = None \/ pool_ref t = true -> choose_read t = (t, Ok tt).
Proof.
  unfold choose_read. intros [H|H]; rewrite H; [reflexivity|].
  destruct (in_src t); reflexivity.
Qed.

(** Claim C1: with [max_chunksize = 2] and a demand of 10 in parallel
    mode, the walk enqueues five jobs of size [10 / 2 = 5] (25 items in
    all), not five jobs of size 2. *)
Theorem chunking_job_sizes :
  let p := fst (prepare_walk 0 10 (sample_pool 1 (sample_task 2 None false))) in
  queue p = repeat (0%nat, 5) 5 /\ foldr (fun j acc => j.2 + acc) 0 (queue p) = 25.
Proof. vm_compute. split; reflexivity. Qed.

(** A computation that, when it returns, returns [None]. *)
Definition returns_none {S} (m : M S pyobj) : Prop :=
  forall s, match snd (m s) with Ok v => v = PNone | Raise _ => True end.

Lemma returns_none_bind {S A} (m : M S A) (k : A -> M S pyobj) :
  (forall a, returns_none (k a)) -> returns_none (m ≫= k).
Proof.
  intros Hk s. cbv [mbind M_bind]. destruct (m s) as [s' [a|e]]; [apply Hk|exact I].
Qed.

Lemma returns_none_ret {S} : returns_none (S:=S) (mret PNone).
Proof. intros s. reflexivity. Qed.

(** Claim C2: [RPoolChannel.read] never returns the items: whatever the
    scheduler, the channel and the hooks, a call that does not raise
    evaluates to [None]. *)
Theorem read_returns_none {S} (prepare : nat -> Z -> M S unit)
    (raw : Z -> bool -> option Z -> M S (list pyobj))
    (ch : rpool_channel) (count : Z) (block : bool) (timeout : option Z)
    (s : S) :
  match snd (read prepare raw ch count block timeout s) with
  | Ok v => v = PNone
  | Raise _ => True
  end.
Proof.
  revert s. unfold read.
  repeat (apply returns_none_bind; intros).
  apply returns_none_ret.
Qed.

(** Claim C4: [process(0)] on an initialized task whose input is empty
    reads no item, so [len(items) == count] and the task is left open:
    it is not marked done. *)
Theorem process_zero_empty_input_not_done (t : task) (w : wchan) :
  out_wc t = Some w -> closed w = false -> in_rc t = [] ->
  apply_single t = true -> in_src t = None \/ pool_ref t = true ->
  process 0 t = (t, Ok tt) /\ fst (is_done (fst (process 0 t))) = t /\
  snd (is_done (fst (process 0 t))) = Ok false.
Proof.
  intros Hw Hc Hin Hs Hr.
  assert (Hp : process 0 t = (t, Ok tt)).
  { unfold process. rewrite (bind_ok _ _ t t t) by reflexivity. rewrite Hw.
    rewrite (bind_ok _ _ t t tt) by (apply choose_read_ok; exact Hr).
    unfold read_input, try_except.
    cbv [mbind M_bind mret M_ret]. rewrite Hin, Hs. cbn.
    destruct t; cbn in *; subst; reflexivity. }
  rewrite Hp. unfold is_done, get_out_wc. cbv [mbind M_bind mret M_ret].
  cbn [fst snd]. rewrite Hw. cbn. rewrite Hc. auto.
Qed.

Lemma process_zero_empty_input_not_done_witness :
  let t := mkTask [] None (Some (mkWChan [] false)) true None identity_fun
             None 0 true in
  process 0 t = (t, Ok tt) /\ fst (is_done (fst (process 0 t))) = t /\
  snd (is_done (fst (process 0 t))) = Ok false.
Proof.
  apply (process_zero_empty_input_not_done _ (mkWChan [] false));
    [reflexivity..|left; reflexivity].
Defined.

(** Claim C5: a task that is already done is put on the consumed list and
    also scheduled: in parallel mode the walk enqueues a job for it. *)
Theorem done_task_still_enqueued :
  let p := fst (prepare_walk 0 1 (sample_pool 1 (sample_task 0 None true))) in
  consumed p = [0%nat] /\ queue p = [(0%nat, 1)].
Proof. vm_compute. split; reflexivity. Qed.

(** Claim C8: [read] calls [self._pre_cb()] without the count.  A hook
    taking the count (like the default [lambda count: None]) makes every
    read fail with a TypeError; a hook that accepts the call and fails has
    its own exception propagated, not an I/O error.  In both cases nothing
    is scheduled or read: the state is unchanged. *)
Theorem pre_cb_called_without_count {S} (prepare : nat -> Z -> M S unit)
    (raw : Z -> bool -> option Z -> M S (list pyobj))
    (ch : rpool_channel) (f : callable) (count : Z) (block : bool)
    (timeout : option Z) (s : S) :
  pre_cb ch = Some f ->
  (c_arity f = 1%nat ->
   read prepare raw ch count block timeout s = (s, Raise TypeError)) /\
  (forall e, c_arity f = 0%nat -> c_body f [] = Raise e ->
   read prepare raw ch count block timeout s = (s, Raise e)).
Proof.
  intros Hf. unfold read, call. rewrite Hf. split.
  - intros Ha. rewrite Ha. reflexivity.
  - intros e Ha Hb. rewrite Ha, Hb. reflexivity.
Qed.

Lemma pre_cb_called_without_count_witness :
  let ch := mkRPoolChannel 0 (Some default_pre_cb) None in
  read (fun _ _ => mret tt) (fun _ _ _ => mret [PInt 1]) ch 1 false None tt
    = (tt, Raise TypeError).
Proof.
  apply (proj1 (pre_cb_called_without_count (fun _ _ => mret tt)
                  (fun _ _ _ => mret [PInt 1])
                  (mkRPoolChannel 0 (Some default_pre_cb) None)
                  default_pre_cb 1 false None tt eq_refl)).
  reflexivity.
Defined.

(** Claim C9: [process] on a task whose output has not been bound by
    [add_task] raises the "uninitialized task" I/O error and leaves the
    task untouched: nothing is read, applied or written. *)
Theorem process_uninitialized (t : task) (count : Z) :
  out_wc t = None ->
  process count t = (t, Raise (IOError "Cannot work in uninitialized task")).
Proof. intros H. destruct t; cbn in H; subst; reflexivity. Qed.

Lemma process_uninitialized_witness :
  let t := new_task [PInt 1] None identity_fun true in
  process 1 t = (t, Raise (IOError "Cannot work in uninitialized task")).
Proof. apply process_uninitialized. reflexivity. Defined.

(** Claim C3: with [min_count = 2] and a request of 5 in parallel mode,
    the walk enqueues one job of size 2: the demand is lowered to
    [min_count], below [max(5, 2) = 5]. *)
Lemma min_count_lowers_demand :
  queue (fst (prepare_walk 0 5 (sample_pool 1 (sample_task 0 (Some 2) false))))
    = [(0%nat, 2)] /\ 2 < Z.max 5 2.
Proof. vm_compute. split; reflexivity. Qed.

(** When [min_count = m] is set, the demand used for the task is [m]
    whatever the requested count [c]: the visitor acts exactly as if [m]
    had been requested, whether [c] is below or above [m]. *)
Theorem min_count_demand (p : pool) (tid : nat) (t : task) (m c : Z) :
  tasks p !! tid = Some t -> min_count t = Some m ->
  queue_feeder_visitor tid c p = queue_feeder_visitor tid m p.
Proof.
  intros Hl Hm. unfold queue_feeder_visitor.
  unfold at_task, error, get, is_done, get_out_wc, modify.
  cbv [mbind M_bind mret M_ret]. rewrite Hl. cbn.
  destruct (exc_ t) eqn:He; cbn.
  - rewrite !lookup_insert_eq. cbn. rewrite Hm. reflexivity.
  - rewrite !lookup_insert_eq. cbn.
    destruct (out_wc t) eqn:Ho; cbn; [|reflexivity].
    destruct (closed w); cbn; rewrite !lookup_insert_eq; cbn; rewrite Hm;
      reflexivity.
Qed.

Lemma min_count_demand_witness :
  queue_feeder_visitor 0 5 (sample_pool 1 (sample_task 0 (Some 2) false))
  = queue_feeder_visitor 0 2 (sample_pool 1 (sample_task 0 (Some 2) false)).
Proof.
  apply (min_count_demand _ 0 (sample_task 0 (Some 2) false) 2 5);
    reflexivity.
Defined.


(** One successful write of [write_out] on an open output channel. *)
Lemma write_out_open (v : pyobj) (u : task) (w : wchan) :
  out_wc u = Some w -> closed w = false ->
  write_out v u = (set_out_wc (Some (mkWChan (wbuf w ++ [v]) false)) u, Ok tt).
Proof.
  intros Hw Hc. unfold write_out, get_out_wc, modify, lift, chan_write.
  cbv [mbind M_bind]. rewrite Hw, Hc. reflexivity.
Qed.

(** Writing the results of [fun] item by item until it raises. *)
Lemma for_each_write_prefix (f : pyobj -> res pyobj) (pre post vs : list pyobj)
    (x : pyobj) (e : exc) (u : task) (w : wchan) :
  out_wc u = Some w -> (closed w = false \/ pre = []) ->
  Forall2 (fun a b => f a = Ok b) pre vs -> f x = Raise e ->
  for_each (pre ++ x :: post) (fun item => v ← lift (f item); write_out v) u
  = (set_out_wc (Some (mkWChan (wbuf w ++ vs) (closed w))) u, Raise e).
Proof.
  intros Hw Hc Hf Hx. revert u w Hw Hc.
  induction Hf as [|a b pre' vs' Hab Hf IH]; intros u w Hw Hc; cbn [for_each app].
  - apply bind_raise. cbv [mbind M_bind lift]. rewrite Hx.
    rewrite app_nil_r. destruct w, u; cbn in *; subst; reflexivity.
  - destruct Hc as [Hc|Hc]; [|discriminate].
    rewrite (bind_ok _ _ u (set_out_wc (Some (mkWChan (wbuf w ++ [b]) false)) u) tt).
    + rewrite (IH _ (mkWChan (wbuf w ++ [b]) false)); [| reflexivity | left; reflexivity].
      cbn. rewrite <- app_assoc, Hc. destruct u; reflexivity.
    + rewrite (bind_ok _ _ u u b); [|cbv [lift]; rewrite Hab; reflexivity].
      apply write_out_open; assumption.
Qed.

(** [fun] raises [e] while [process] applies it to the batch [items],
    after returning [vs] for the items before. *)
Definition application_raises (t : task) (items vs : list pyobj) (e : exc)
    : Prop :=
  (apply_single t = true /\
   exists pre x post, items = pre ++ x :: post /\
     Forall2 (fun a b => fun_ t a = Ok b) pre vs /\ fun_ t x = Raise e)
  \/ (apply_single t = false /\ vs = [] /\ fun_ t (PList items) = Raise e).

(** Claim C6 (as the code has it): when [fun] raises an exception while
    [process] applies it to the items read, the items written before stay
    in the output.  An exception that derives from [Exception] is stored
    in the task's error slot, the task is done (its output closed) and
    [process] returns normally.  Any other exception (KeyboardInterrupt,
    SystemExit) is not caught by [except Exception]: it propagates out of
    [process], the error slot is left as it was and the output is not
    closed. *)
Theorem process_captures_exception (t : task) (w : wchan) (count : Z)
    (vs : list pyobj) (e : exc) :
  out_wc t = Some w -> (closed w = false \/ vs = []) ->
  in_src t = None \/ pool_ref t = true ->
  application_raises t (fst (chan_read count (in_rc t))) vs e ->
  process count t =
    if is_Exception e then
      (set_out_wc (Some (mkWChan (wbuf w ++ vs) true))
         (set_exc (Some e) (set_in_rc (snd (chan_read count (in_rc t))) t)),
       Ok tt)
    else
      (set_out_wc (Some (mkWChan (wbuf w ++ vs) (closed w)))
         (set_in_rc (snd (chan_read count (in_rc t))) t),
       Raise e).
Proof.
  intros Hw Hc Hrd Happ.
  destruct (chan_read count (in_rc t)) as [items rest] eqn:Hr. cbn in Happ |- *.
  set (u1 := set_in_rc rest t).
  assert (Hw1 : out_wc u1 = Some w) by (subst u1; destruct t; exact Hw).
  assert (Hb : (if apply_single t then
                  for_each items (fun item => v ← lift (fun_ t item); write_out v)
                else (v ← lift (fun_ t (PList items)); write_out v)) u1
               = (set_out_wc (Some (mkWChan (wbuf w ++ vs) (closed w))) u1,
                  Raise e)).
  { destruct Happ as [[Hs [pre [x [post [Hi [Hf Hx]]]]]] | [Hs [Hv Hx]]];
      rewrite Hs.
    - subst items. apply for_each_write_prefix; try assumption.
      destruct Hc as [Hc|Hc]; [left; exact Hc|right; subst vs; inversion Hf; reflexivity].
    - apply bind_raise. cbv [lift]. rewrite Hx. subst vs. rewrite app_nil_r.
      destruct w, u1; cbn in *; subst; reflexivity. }
  unfold process.
  rewrite (bind_ok _ _ t t t) by reflexivity. rewrite Hw.
  rewrite (bind_ok _ _ t t tt) by (apply choose_read_ok; exact Hrd).
  rewrite (bind_ok _ _ t u1 items) by (unfold read_input; rewrite Hr; reflexivity).
  destruct (is_Exception e) eqn:He.
  2: { apply bind_raise. unfold try_except. rewrite Hb, He.
       subst u1; destruct t; reflexivity. }
  set (u3 := set_out_wc (Some (mkWChan (wbuf w ++ vs) true)) (set_exc (Some e) u1)).
  rewrite (bind_ok _ _ u1 u3 tt).
  - destruct (negb _); [|reflexivity].
    unfold set_done, get_out_wc, modify. cbv [mbind M_bind]. cbn.
    subst u3 u1; destruct t; reflexivity.
  - unfold try_except. rewrite Hb, He.
    unfold set_done, get_out_wc, modify. cbv [mbind M_bind]. cbn.
    subst u3 u1; destruct t; reflexivity.
Qed.

Lemma process_captures_exception_witness :
  let t := mkTask [PInt 1; PInt 2; PInt 3] None (Some (mkWChan [] false)) true
             None (fun v => match v with PInt 2 => Raise (UserError 7) | _ => Ok v end)
             None 0 true in
  let t' := mkTask [PInt 1; PInt 2; PInt 3] None (Some (mkWChan [] false)) true
              None (fun v => match v with PInt 2 => Raise (BaseOnly 7) | _ => Ok v end)
              None 0 true in
  process 3 t =
    (set_out_wc (Some (mkWChan [PInt 1] true))
       (set_exc (Some (UserError 7)) (set_in_rc [] t)), Ok tt) /\
  process 3 t' =
    (set_out_wc (Some (mkWChan [PInt 1] false)) (set_in_rc [] t'),
     Raise (BaseOnly 7)).
Proof.
  intros t t'. split.
  - refine (process_captures_exception t (mkWChan [] false) 3 [PInt 1]
              (UserError 7) _ _ _ _).
    + reflexivity.
    + left; reflexivity.
    + left; reflexivity.
    + left. split; [reflexivity|].
      exists [PInt 1], (PInt 2), [PInt 3]. split; [reflexivity|].
      split; [constructor; [reflexivity|constructor] | reflexivity].
  - refine (process_captures_exception t' (mkWChan [] false) 3 [PInt 1]
              (BaseOnly 7) _ _ _ _).
    + reflexivity.
    + left; reflexivity.
    + left; reflexivity.
    + left. split; [reflexivity|].
      exists [PInt 1], (PInt 2), [PInt 3]. split; [reflexivity|].
      split; [constructor; [reflexivity|constructor] | reflexivity].
Defined.

(** Claim C6: an exception of [fun] that does not derive from [Exception]
    (KeyboardInterrupt, SystemExit) is not caught by [except Exception]:
    it propagates out of [process], the error slot stays empty and the
    task is not marked done. *)
Lemma process_base_exception_propagates :
  let t := mkTask [PInt 1] None (Some (mkWChan [] false)) true None
             (fun _ => Raise (BaseOnly 0)) None 0 true in
  snd (process 1 t) = Raise (BaseOnly 0) /\ exc_ (fst (process 1 t)) = None /\
  out_wc (fst (process 1 t)) = Some (mkWChan [] false).
Proof. vm_compute. auto. Qed.

(** ** The worker list *)

(** [m] leaves the number of workers as it is. *)
Definition keeps_workers {A} (m : M pool A) : Prop :=
  forall p, workers (fst (m p)) = workers p.

Create HintDb workers.

Lemma keeps_bind {A B} (m : M pool A) (k : A -> M pool B) :
  keeps_workers m -> (forall a, keeps_workers (k a)) -> keeps_workers (m ≫= k).
Proof.
  intros Hm Hk p. cbv [mbind M_bind]. specialize (Hm p).
  destruct (m p) as [p' [a|e]]; cbn in *; [rewrite Hk|]; exact Hm.
Qed.

Lemma keeps_ret {A} (a : A) : keeps_workers (mret a).
Proof. intros p. reflexivity. Qed.

Lemma keeps_get : keeps_workers get.
Proof. intros p. reflexivity. Qed.

Lemma keeps_throw {A} (e : exc) : keeps_workers (A:=A) (throw e).
Proof. intros p. reflexivity. Qed.

Lemma keeps_lift {A} (r : res A) : keeps_workers (lift r).
Proof. intros p. reflexivity. Qed.

Lemma keeps_at_task {A} (tid : nat) (m : M task A) : keeps_workers (at_task tid m).
Proof.
  intros p. unfold at_task. destruct (tasks p !! tid) as [t|]; [|reflexivity].
  destruct (m t); reflexivity.
Qed.

Lemma keeps_modify (f : pool -> pool) :
  (forall p, workers (f p) = workers p) -> keeps_workers (modify f).
Proof. intros Hf p. apply Hf. Qed.

Lemma keeps_for_each {A} (l : list A) (f : A -> M pool unit) :
  (forall a, keeps_workers (f a)) -> keeps_workers (for_each l f).
Proof.
  intros Hf. induction l as [|a l IH]; cbn; [apply keeps_ret|].
  apply keeps_bind; auto.
Qed.

#[local] Hint Resolve keeps_ret keeps_get keeps_throw keeps_lift keeps_at_task
  keeps_for_each : workers.

Ltac keeps_tac :=
  repeat first
    [ progress cbv beta zeta
    | apply keeps_bind
    | apply keeps_for_each
    | apply keeps_modify; intros; reflexivity
    | progress intros
    | match goal with
      | |- keeps_workers (if ?b then _ else _) => destruct b
      | |- keeps_workers (match ?x with _ => _ end) => destruct x
      end
    | solve [eauto with workers] ].

Lemma keeps_enqueue (job : nat * Z) : keeps_workers (enqueue job).
Proof. unfold enqueue. keeps_tac. Qed.
#[local] Hint Resolve keeps_enqueue : workers.

Lemma keeps_visitor (tid : nat) (count : Z) :
  keeps_workers (queue_feeder_visitor tid count).
Proof. unfold queue_feeder_visitor. keeps_tac. Qed.
#[local] Hint Resolve keeps_visitor : workers.

Lemma keeps_prepare_walk (tid : nat) (count : Z) :
  keeps_workers (prepare_walk tid count).
Proof.
  intros p. unfold prepare_walk.
  apply (keeps_for_each _ (fun n => queue_feeder_visitor n count ;; mret tt)).
  intros n. keeps_tac.
Qed.

Lemma keeps_add_task (tid : nat) (t : task) : keeps_workers (add_task tid t).
Proof. unfold add_task. keeps_tac. Qed.

Lemma keeps_drain (fuel : nat) : keeps_workers (drain fuel).
Proof.
  induction fuel as [|f IH]; intros p; cbn; [reflexivity|].
  destruct (queue p) as [|[tid c] js]; [reflexivity|].
  pose proof (keeps_at_task tid (process c) (set_queue js p)) as H.
  destruct (at_task tid (process c) (set_queue js p)) as [p' [|]];
    cbn in *; [rewrite IH|]; exact H.
Qed.

Lemma keeps_run_ops (os : list pool_op) :
  Forall (fun o => is_set_pool_size o = false) os -> keeps_workers (run_ops os).
Proof.
  induction 1 as [|o os Ho _ IH]; cbn; [apply keeps_ret|].
  apply keeps_bind; [|intros; exact IH].
  destruct o; cbn in Ho; try discriminate; cbn.
  - apply keeps_bind; [apply keeps_add_task|intros; apply keeps_ret].
  - apply keeps_prepare_walk.
  - apply keeps_at_task.
Qed.

(** [set_pool_size(size)] with [size >= 0] leaves exactly [size] workers. *)
Lemma set_pool_size_workers (size : Z) (p : pool) :
  0 <= size -> workers (fst (set_pool_size size p)) = Z.to_nat size.
Proof.
  intros Hs. unfold set_pool_size, get, modify, throw.
  cbv [mbind M_bind mret M_ret].
  destruct (Z.of_nat (workers p) <? size) eqn:H1;
    [|destruct (size <? Z.of_nat (workers p)) eqn:H2;
      [destruct (Z.of_nat (workers p) - size <=? Z.of_nat (workers p)) eqn:H3|]];
    cbn; try (apply Z.leb_gt in H3; lia);
    destruct (size =? 0) eqn:H0; cbn;
    try rewrite keeps_drain; cbn; try reflexivity.
  all: apply Z.ltb_ge in H1; apply Z.ltb_ge in H2; lia.
Qed.

(** Claim C10: [ThreadPool(size=n)] does not depend on [n]: the new pool
    has no worker and an empty queue (serial mode); every operation other
    than [set_pool_size] keeps it without workers, and [set_pool_size(s)]
    ([s >= 0]) is what gives it [s] workers. *)
Theorem ThreadPool_init_serial (n : Z) :
  ThreadPool_init n = ThreadPool_init 0 /\
  workers (ThreadPool_init n) = 0%nat /\ queue (ThreadPool_init n) = [] /\
  (forall os, Forall (fun o => is_set_pool_size o = false) os ->
     workers (fst (run_ops os (ThreadPool_init n))) = 0%nat) /\
  (forall s p, 0 <= s -> workers (fst (set_pool_size s p)) = Z.to_nat s).
Proof.
  split; [reflexivity|]. split; [reflexivity|]. split; [reflexivity|].
  split.
  - intros os Hos. rewrite (keeps_run_ops os Hos). reflexivity.
  - apply set_pool_size_workers.
Qed.

Lemma ThreadPool_init_serial_witness :
  workers (fst (run_ops [AddTask 0 (sample_task 0 None false); PrepareWalk 0 1]
                  (ThreadPool_init 4))) = 0%nat /\
  workers (fst (set_pool_size 3 (ThreadPool_init 4))) = 3%nat.
Proof.
  split.
  - apply (proj1 (proj2 (proj2 (proj2 (ThreadPool_init_serial 4))))).
    repeat constructor.
  - apply (proj2 (proj2 (proj2 (proj2 (ThreadPool_init_serial 4))))). lia.
Defined.

(** ** TaskNode.process on its successful paths *)

(** Writing the results of [fun] for every item of the batch. *)
Lemma for_each_write_all (f : pyobj -> res pyobj) (items vs : list pyobj)
    (u : task) (w : wchan) :
  out_wc u = Some w -> closed w = false ->
  Forall2 (fun a b => f a = Ok b) items vs ->
  for_each items (fun item => v ← lift (f item); write_out v) u
  = (set_out_wc (Some (mkWChan (wbuf w ++ vs) false)) u, Ok tt).
Proof.
  intros Hw Hc Hf. revert u w Hw Hc.
  induction Hf as [|a b items' vs' Hab Hf IH]; intros u w Hw Hc; cbn [for_each].
  - rewrite app_nil_r. destruct w, u; cbn in *; subst; reflexivity.
  - rewrite (bind_ok _ _ u (set_out_wc (Some (mkWChan (wbuf w ++ [b]) false)) u) tt).
    + rewrite (IH _ (mkWChan (wbuf w ++ [b]) false)); [| reflexivity | reflexivity].
      cbn. rewrite <- app_assoc. destruct u; reflexivity.
    + rewrite (bind_ok _ _ u u b); [|cbv [lift]; rewrite Hab; reflexivity].
      apply write_out_open; assumption.
Qed.

(** The closing step of [process]: [set_done()] when
    [len(items) != count]. *)
Lemma process_final_step (u : task) (ws : list pyobj) (n : nat) (count : Z) :
  out_wc u = Some (mkWChan ws false) ->
  (if negb (Z.of_nat n =? count) then set_done else mret tt) u
  = (set_out_wc (Some (mkWChan ws (negb (Z.of_nat n =? count)))) u, Ok tt).
Proof.
  intros Hw. destruct (negb _).
  - unfold set_done, get_out_wc, modify. cbv [mbind M_bind]. rewrite Hw.
    reflexivity.
  - destruct u; cbn in *; subst; reflexivity.
Qed.

(** With [apply_single], [process] on an open output whose [fun] succeeds
    on every item read writes the results in the order of the input, takes
    those items off the input, and marks the task done exactly when fewer
    or more items than [count] were read. *)
Theorem process_apply_single_ok (t : task) (w : wchan) (count : Z)
    (vs : list pyobj) :
  out_wc t = Some w -> closed w = false -> apply_single t = true ->
  in_src t = None \/ pool_ref t = true ->
  Forall2 (fun a b => fun_ t a = Ok b) (fst (chan_read count (in_rc t))) vs ->
  process count t =
    (set_out_wc (Some (mkWChan (wbuf w ++ vs)
                         (negb (Z.of_nat (length vs) =? count))))
       (set_in_rc (snd (chan_read count (in_rc t))) t), Ok tt).
Proof.
  intros Hw Hc Hs Hrd Hf.
  destruct (chan_read count (in_rc t)) as [items rest] eqn:Hr. cbn in Hf |- *.
  set (u1 := set_in_rc rest t).
  assert (Hw1 : out_wc u1 = Some w) by (subst u1; destruct t; exact Hw).
  unfold process.
  rewrite (bind_ok _ _ t t t) by reflexivity. rewrite Hw.
  rewrite (bind_ok _ _ t t tt) by (apply choose_read_ok; exact Hrd).
  rewrite (bind_ok _ _ t u1 items) by (unfold read_input; rewrite Hr; reflexivity).
  rewrite Hs.
  rewrite (bind_ok _ _ u1 (set_out_wc (Some (mkWChan (wbuf w ++ vs) false)) u1) tt).
  - rewrite (Forall2_length _ _ _ Hf), (process_final_step _ (wbuf w ++ vs))
      by reflexivity.
    subst u1; destruct t; reflexivity.
  - unfold try_except. rewrite (for_each_write_all _ items vs u1 w); auto.
Qed.

Lemma process_apply_single_ok_witness :
  let t := mkTask [PInt 1; PInt 2] None (Some (mkWChan [PInt 0] false)) true
             None identity_fun None 0 true in
  process 5 t =
    (set_out_wc (Some (mkWChan ([PInt 0] ++ [PInt 1; PInt 2]) true))
       (set_in_rc [] t), Ok tt).
Proof.
  intros t.
  refine (process_apply_single_ok t (mkWChan [PInt 0] false) 5
            [PInt 1; PInt 2] _ _ _ _ _); try reflexivity.
  - left; reflexivity.
  - repeat constructor.
Defined.

(** Without [apply_single], [process] calls [fun] once on the whole batch
    (even an empty one) and writes exactly one item, its result. *)
Theorem process_batch_ok (t : task) (w : wchan) (count : Z) (v : pyobj) :
  out_wc t = Some w -> closed w = false -> apply_single t = false ->
  in_src t = None \/ pool_ref t = true ->
  fun_ t (PList (fst (chan_read count (in_rc t)))) = Ok v ->
  process count t =
    (set_out_wc (Some (mkWChan (wbuf w ++ [v])
       (negb (Z.of_nat (length (fst (chan_read count (in_rc t)))) =? count))))
       (set_in_rc (snd (chan_read count (in_rc t))) t), Ok tt).
Proof.
  intros Hw Hc Hs Hrd Hv.
  destruct (chan_read count (in_rc t)) as [items rest] eqn:Hr. cbn in Hv |- *.
  set (u1 := set_in_rc rest t).
  assert (Hw1 : out_wc u1 = Some w) by (subst u1; destruct t; exact Hw).
  unfold process.
  rewrite (bind_ok _ _ t t t) by reflexivity. rewrite Hw.
  rewrite (bind_ok _ _ t t tt) by (apply choose_read_ok; exact Hrd).
  rewrite (bind_ok _ _ t u1 items) by (unfold read_input; rewrite Hr; reflexivity).
  rewrite Hs.
  rewrite (bind_ok _ _ u1 (set_out_wc (Some (mkWChan (wbuf w ++ [v]) false)) u1) tt).
  - rewrite (process_final_step _ (wbuf w ++ [v])) by reflexivity.
    subst u1; destruct t; reflexivity.
  - unfold try_except.
    rewrite (bind_ok _ _ u1 u1 v) by (cbv [lift]; rewrite Hv; reflexivity).
    rewrite (write_out_open _ _ w); auto.
Qed.

Lemma process_batch_ok_witness :
  let t := mkTask [] None (Some (mkWChan [] false)) true None
             (fun b => match b with PList l => Ok (PInt (Z.of_nat (length l)))
                               | _ => Raise TypeError end) None 0 false in
  process 3 t =
    (set_out_wc (Some (mkWChan ([] ++ [PInt 0]) (negb (Z.of_nat 0 =? 3))))
       (set_in_rc [] t), Ok tt).
Proof.
  intros t. exact (process_batch_ok t (mkWChan [] false) 3 (PInt 0)
                     eq_refl eq_refl eq_refl (or_introl eq_refl) eq_refl).
Defined.

(** ** Errors that [process] lets through *)

(** [fun] raises, if at all, only exceptions deriving from [Exception]. *)
Definition fun_raises_Exception (f : pyobj -> res pyobj) : Prop :=
  forall v e, f v = Raise e -> is_Exception e = true.

(** [u'] has the [fun], the input kind and the pool reference of [u]. *)
Definition same_slots (u' u : task) : Prop :=
  fun_ u' = fun_ u /\ in_src u' = in_src u /\ pool_ref u' = pool_ref u.

(** [m] keeps an initialized task initialized, with the same [fun], input
    kind and pool reference, and raises, if at all, only exceptions
    deriving from [Exception]. *)
Definition raises_Exception_only {A} (m : M task A) : Prop :=
  forall u, out_wc u <> None ->
    out_wc (fst (m u)) <> None /\ same_slots (fst (m u)) u /\
    match snd (m u) with Raise e => is_Exception e = true | Ok _ => True end.

(** [m] keeps an initialized task initialized, with the same [fun], input
    kind and pool reference, and does not raise. *)
Definition never_raises {A} (m : M task A) : Prop :=
  forall u, out_wc u <> None ->
    out_wc (fst (m u)) <> None /\ same_slots (fst (m u)) u /\
    exists a, snd (m u) = Ok a.

Lemma same_slots_refl (u : task) : same_slots u u.
Proof. unfold same_slots. auto. Qed.

Lemma same_slots_trans (u'' u' u : task) :
  same_slots u'' u' -> same_slots u' u -> same_slots u'' u.
Proof. unfold same_slots. intros [? [? ?]] [? [? ?]]. split; [|split]; congruence. Qed.

#[local] Hint Resolve same_slots_refl : core.

Lemma reo_bind {A B} (m : M task A) (k : A -> M task B) :
  raises_Exception_only m -> (forall a, raises_Exception_only (k a)) ->
  raises_Exception_only (m ≫= k).
Proof.
  intros Hm Hk u Hu. cbv [mbind M_bind].
  destruct (Hm u Hu) as [H1 [H2 H3]].
  destruct (m u) as [u' [a|e]]; cbn in *; [|auto].
  destruct (Hk a u' H1) as [G1 [G2 G3]]. eauto using same_slots_trans.
Qed.

Lemma nr_bind {A B} (m : M task A) (k : A -> M task B) :
  never_raises m -> (forall a, never_raises (k a)) -> never_raises (m ≫= k).
Proof.
  intros Hm Hk u Hu. cbv [mbind M_bind].
  destruct (Hm u Hu) as [H1 [H2 [a H3]]].
  destruct (m u) as [u' r]; cbn in *; subst r.
  destruct (Hk a u' H1) as [G1 [G2 G3]]. eauto using same_slots_trans.
Qed.

Lemma nr_reo {A} (m : M task A) : never_raises m -> raises_Exception_only m.
Proof.
  intros Hm u Hu. destruct (Hm u Hu) as [H1 [H2 [a H3]]]. rewrite H3. auto.
Qed.

Lemma nr_ret {A} (a : A) : never_raises (mret a).
Proof. intros u Hu. cbn. eauto. Qed.

Lemma nr_get_out_wc : never_raises get_out_wc.
Proof.
  intros u Hu. unfold get_out_wc. destruct (out_wc u) eqn:E; [|congruence].
  cbn. rewrite E. split; [discriminate|eauto].
Qed.

Lemma nr_set_out_wc (w : wchan) : never_raises (modify (set_out_wc (Some w))).
Proof.
  intros u Hu. cbn. split; [discriminate|].
  destruct u; unfold same_slots; cbn; eauto.
Qed.

Lemma nr_set_exc (e : option exc) : never_raises (modify (set_exc e)).
Proof. intros u Hu. destruct u; unfold same_slots; cbn in *. eauto 6. Qed.

Lemma nr_set_done : never_raises set_done.
Proof.
  unfold set_done. apply nr_bind; [apply nr_get_out_wc|intros; apply nr_set_out_wc].
Qed.

Lemma nr_read_input (count : Z) : never_raises (read_input count).
Proof.
  intros u Hu. unfold read_input. destruct (chan_read count (in_rc u)).
  destruct u; unfold same_slots; cbn in *. eauto 6.
Qed.

Lemma reo_lift {A} (r : res A) :
  (forall e, r = Raise e -> is_Exception e = true) ->
  raises_Exception_only (lift r).
Proof. intros Hr u Hu. cbn. destruct r as [a|e]; auto. Qed.

Lemma reo_write_out (v : pyobj) : raises_Exception_only (write_out v).
Proof.
  unfold write_out. apply reo_bind; [apply nr_reo, nr_get_out_wc|intros w].
  apply reo_bind; [|intros; apply nr_reo, nr_set_out_wc].
  apply reo_lift. intros e. unfold chan_write.
  destruct (closed w); intros H; inversion H; reflexivity.
Qed.

Lemma reo_for_each {A} (l : list A) (f : A -> M task unit) :
  (forall a, raises_Exception_only (f a)) ->
  raises_Exception_only (for_each l f).
Proof.
  intros Hf. induction l as [|a l IH]; cbn; [apply nr_reo, nr_ret|].
  apply reo_bind; auto.
Qed.

Lemma nr_try_except {A} (m : M task A) (h : exc -> M task A) :
  raises_Exception_only m -> (forall e, never_raises (h e)) ->
  never_raises (try_except m h).
Proof.
  intros Hm Hh u Hu. unfold try_except.
  destruct (Hm u Hu) as [H1 [H2 H3]].
  destruct (m u) as [u' [a|e]]; cbn in *; [eauto|].
  rewrite H3. destruct (Hh e u' H1) as [G1 [G2 G3]]. eauto using same_slots_trans.
Qed.

(** [process] on an initialized task whose [fun] raises only exceptions
    deriving from [Exception] returns normally, for every count and every
    state of the task (done or not); the task stays initialized and keeps
    its [fun]. *)
Theorem process_never_raises (t : task) (count : Z) :
  out_wc t <> None -> in_src t = None \/ pool_ref t = true ->
  fun_raises_Exception (fun_ t) ->
  exists t', process count t = (t', Ok tt) /\ out_wc t' <> None /\
             fun_ t' = fun_ t /\ in_src t' = in_src t /\ pool_ref t' = pool_ref t.
Proof.
  intros Ht Hrd Hf. unfold process.
  rewrite (bind_ok _ _ t t t) by reflexivity.
  destruct (out_wc t) as [w|] eqn:Hw; [|congruence].
  rewrite (bind_ok _ _ t t tt) by (apply choose_read_ok; exact Hrd).
  assert (Hnr : never_raises (
    items ← read_input count;
    try_except
      (if apply_single t then
         for_each items (fun item => v ← lift (fun_ t item); write_out v)
       else (v ← lift (fun_ t (PList items)); write_out v))
      (fun e => modify (set_exc (Some e)) ;; set_done) ;;
    if negb (Z.of_nat (length items) =? count) then set_done else mret tt)).
  { apply nr_bind; [apply nr_read_input|intros items].
    apply nr_bind.
    - apply nr_try_except.
      + destruct (apply_single t).
        * apply reo_for_each. intros a.
          apply reo_bind; [apply reo_lift; intros e He; exact (Hf _ _ He)|].
          intros; apply reo_write_out.
        * apply reo_bind; [apply reo_lift; intros e He; exact (Hf _ _ He)|].
          intros; apply reo_write_out.
      + intros e. apply nr_bind; [apply nr_set_exc|intros; apply nr_set_done].
    - intros _. destruct (negb _); [apply nr_set_done|apply nr_ret]. }
  destruct (Hnr t ltac:(rewrite Hw; discriminate)) as [H1 [H2 [a H3]]].
  match goal with |- exists t', ?m t = _ /\ _ => destruct (m t) as [t' r] eqn:E end.
  cbn in *. subst r. destruct a. destruct H2 as [? [? ?]]. eauto 7.
Qed.

Lemma process_never_raises_witness :
  exists t', process 2 (sample_task 0 None true) = (t', Ok tt) /\
             out_wc t' <> None /\ fun_ t' = fun_ (sample_task 0 None true) /\
             in_src t' = in_src (sample_task 0 None true) /\
             pool_ref t' = pool_ref (sample_task 0 None true).
Proof.
  apply process_never_raises; [discriminate|left; reflexivity|].
  intros v e H. discriminate.
Defined.

(** ** set_pool_size *)





(** [set_pool_size(size)] with [size > 0] sets the number of workers to
    [size]; when it shrinks the list, the workers it removes are the first
    ones, so only the stopped workers beyond them remain.  The queue and
    the tasks are left as they are and nothing is run. *)
Theorem set_pool_size_positive (size : Z) (p : pool) :
  0 < size ->
  set_pool_size size p =
    (set_stopped (Nat.sub (stopped p) (Nat.sub (workers p) (Z.to_nat size)))
       (set_workers (Z.to_nat size) p), Ok tt).
Proof.
  intros Hs. unfold set_pool_size, get, modify, throw.
  cbv [mbind M_bind mret M_ret].
  assert (H0 : (size =? 0) = false) by (apply Z.eqb_neq; lia).
  destruct (Z.of_nat (workers p) <? size) eqn:H1; cbn; rewrite ?H0.
  - apply Z.ltb_lt in H1.
    replace (Nat.sub (workers p) (Z.to_nat size)) with 0%nat by lia.
    rewrite Nat.sub_0_r. destruct p; reflexivity.
  - destruct (size <? Z.of_nat (workers p)) eqn:H2; cbn.
    + assert (H3 : (Z.of_nat (workers p) - size <=? Z.of_nat (workers p)) = true)
        by (apply Z.leb_le; lia).
      rewrite H3. cbn. rewrite ?H0.
      replace (Z.to_nat (Z.of_nat (workers p) - size))
        with (Nat.sub (workers p) (Z.to_nat size)) by lia.
      reflexivity.
    + rewrite ?H0. apply Z.ltb_ge in H1, H2.
      assert (Hw : workers p = Z.to_nat size) by lia.
      rewrite <- Hw, Nat.sub_diag, Nat.sub_0_r. destruct p; reflexivity.
Qed.

Lemma set_pool_size_positive_witness :
  set_pool_size 1 (set_stopped 2 (sample_pool 3 (sample_task 0 None false)))
  = (set_stopped (Nat.sub 2 (Nat.sub 3 (Z.to_nat 1)))
       (set_workers (Z.to_nat 1)
          (set_stopped 2 (sample_pool 3 (sample_task 0 None false)))), Ok tt).
Proof. apply set_pool_size_positive. lia. Defined.

(** [set_pool_size(size)] with [size < 0] stops every worker, then indexes
    past the worker list and raises an IndexError: the stopped workers
    stay in the list, and the queue and the tasks are left as they are. *)
Theorem set_pool_size_negative (size : Z) (p : pool) :
  size < 0 -> set_pool_size size p = (set_stopped (workers p) p, Raise IndexError).
Proof.
  intros Hs. unfold set_pool_size, get, modify, throw.
  cbv [mbind M_bind mret M_ret].
  assert (H1 : (Z.of_nat (workers p) <? size) = false) by (apply Z.ltb_ge; lia).
  assert (H2 : (size <? Z.of_nat (workers p)) = true) by (apply Z.ltb_lt; lia).
  assert (H3 : (Z.of_nat (workers p) - size <=? Z.of_nat (workers p)) = false)
    by (apply Z.leb_gt; lia).
  rewrite H1, H2, H3. reflexivity.
Qed.

Lemma set_pool_size_negative_witness :
  set_pool_size (-1) (sample_pool 2 (sample_task 0 None false))
  = (set_stopped 2 (sample_pool 2 (sample_task 0 None false)), Raise IndexError).
Proof. apply set_pool_size_negative. lia. Defined.

(** ** The scheduling visitor *)

(** An operation that reads the task object without changing it. *)
Lemma at_task_getter {A} (tid : nat) (m : M task A) (p : pool) (t : task)
    (r : res A) :
  tasks p !! tid = Some t -> m t = (t, r) -> at_task tid m p = (p, r).
Proof.
  intros Hl Hm. unfold at_task. rewrite Hl, Hm, insert_id by exact Hl.
  destruct p; reflexivity.
Qed.

Lemma for_each_enqueue (job : nat * Z) (n : nat) (p : pool) :
  for_each (repeat tt n) (fun _ => enqueue job) p
  = (set_queue (queue p ++ repeat job n) p, Ok tt).
Proof.
  revert p. induction n as [|n IH]; intros p; cbn [repeat for_each].
  - rewrite app_nil_r. destruct p; reflexivity.
  - rewrite (bind_ok _ _ p (set_queue (queue p ++ [job]) p) tt) by reflexivity.
    rewrite IH. cbn. rewrite <- app_assoc. reflexivity.
Qed.

(** The first half of the visitor: the consumed-list step and the lookup
    of the task. *)
Lemma visitor_prefix (p : pool) (tid : nat) (t : task) (w : wchan) (c : Z) :
  tasks p !! tid = Some t -> out_wc t = Some w ->
  let p1 := if match exc_ t with Some _ => true | None => closed w end
            then set_consumed (consumed p ++ [tid]) p else p in
  let c' := match min_count t with Some m => m | None => c end in
  queue_feeder_visitor tid c p =
  ((if bool_decide (workers p1 <> 0%nat) then
      (if c' <? 1 then mret true
       else w ← at_task tid get_out_wc; mret (chan_size w <? c'))
      ≫= fun sched : bool =>
      if sched then
        (if negb (max_chunksize t =? 0) then
           for_each (repeat tt (Z.to_nat (c' / max_chunksize t)))
             (fun _ => enqueue (tid, c' / max_chunksize t)) ;;
           (if negb (c' - c' / max_chunksize t * max_chunksize t =? 0)
            then enqueue (tid, c' - c' / max_chunksize t * max_chunksize t)
            else mret tt)
         else enqueue (tid, c'))
      else mret tt
    else at_task tid (process c')) ;; mret true) p1.
Proof.
  intros Hl Ho p1 c'. unfold queue_feeder_visitor.
  rewrite (bind_ok _ _ p p (exc_ t)) by (apply (at_task_getter _ _ _ t); auto).
  assert (Hp1 : tasks p1 !! tid = Some t).
  { unfold p1. destruct (exc_ t); [exact Hl|destruct (closed w); exact Hl]. }
  destruct (exc_ t) as [e|] eqn:He.
  - rewrite (bind_ok _ _ p p true) by reflexivity.
    rewrite (bind_ok _ _ p p1 tt) by reflexivity.
    rewrite (bind_ok _ _ p1 p1 t) by (apply (at_task_getter _ _ _ t); auto).
    rewrite (bind_ok _ _ p1 p1 p1) by reflexivity. reflexivity.
  - rewrite (bind_ok _ _ p p (closed w)).
    2: { apply (at_task_getter _ _ _ t); auto.
         unfold is_done, get_out_wc. cbv [mbind M_bind]. rewrite Ho. reflexivity. }
    rewrite (bind_ok _ _ p p1 tt) by (subst p1; destruct (closed w); reflexivity).
    rewrite (bind_ok _ _ p1 p1 t) by (apply (at_task_getter _ _ _ t); auto).
    rewrite (bind_ok _ _ p1 p1 p1) by reflexivity. reflexivity.
Qed.

(** The visitor in parallel mode, with the jobs it enqueues written out. *)
Lemma visitor_parallel_eq (p : pool) (tid : nat) (t : task) (w : wchan) (c : Z) :
  workers p <> 0%nat -> tasks p !! tid = Some t -> out_wc t = Some w ->
  let p1 := if match exc_ t with Some _ => true | None => closed w end
            then set_consumed (consumed p ++ [tid]) p else p in
  let c' := match min_count t with Some m => m | None => c end in
  let k := max_chunksize t in
  queue_feeder_visitor tid c p =
  (set_queue (queue p ++
     (if (c' <? 1) || (chan_size w <? c') then
        if negb (k =? 0) then
          repeat (tid, c' / k) (Z.to_nat (c' / k)) ++
          (if negb (c' - c' / k * k =? 0) then [(tid, c' - c' / k * k)] else [])
        else [(tid, c')]
      else [])) p1, Ok true).
Proof.
  intros Hw Hl Ho p1 c' k. rewrite (visitor_prefix p tid t w c Hl Ho).
  fold p1 c'.
  assert (Hp1 : tasks p1 !! tid = Some t /\ workers p1 = workers p /\
                queue p1 = queue p).
  { unfold p1. destruct (exc_ t); [auto|destruct (closed w); auto]. }
  destruct Hp1 as [Hl1 [Hw1 Hq1]].
  rewrite bool_decide_true by congruence.
  erewrite bind_ok; [reflexivity|].
  set (sched := (c' <? 1) || (chan_size w <? c')).
  rewrite (bind_ok _ _ p1 p1 sched).
  2: { subst sched. destruct (c' <? 1); [reflexivity|].
       rewrite (bind_ok _ _ p1 p1 w) by (apply (at_task_getter _ _ _ t); auto;
         unfold get_out_wc; rewrite Ho; reflexivity).
       reflexivity. }
  destruct sched; cbn [negb orb].
  - fold k. destruct (k =? 0); cbn [negb].
    + cbv [enqueue modify]. rewrite Hq1. reflexivity.
    + rewrite (bind_ok _ _ p1 _ tt) by apply for_each_enqueue.
      destruct (c' - c' / k * k =? 0); cbn [negb];
        cbv [enqueue modify mret M_ret]; cbn; rewrite Hq1;
        rewrite ?app_nil_r, <- ?app_assoc; reflexivity.
  - rewrite app_nil_r, <- Hq1. cbv [mret M_ret]. f_equal.
    clearbody p1. destruct p1; reflexivity.
Qed.

(** In parallel mode the visitor leaves every task object as it is and
    always returns [True]; it appends the task to the consumed list exactly
    when the task has a captured error or its output channel is closed. *)
Theorem visitor_parallel_bookkeeping (p : pool) (tid : nat) (t : task)
    (w : wchan) (c : Z) :
  workers p <> 0%nat -> tasks p !! tid = Some t -> out_wc t = Some w ->
  snd (queue_feeder_visitor tid c p) = Ok true /\
  tasks (fst (queue_feeder_visitor tid c p)) = tasks p /\
  workers (fst (queue_feeder_visitor tid c p)) = workers p /\
  nodes (fst (queue_feeder_visitor tid c p)) = nodes p /\
  edges (fst (queue_feeder_visitor tid c p)) = edges p /\
  consumed (fst (queue_feeder_visitor tid c p)) =
    consumed p ++ (if match exc_ t with Some _ => true | None => closed w end
                   then [tid] else []).
Proof.
  intros Hw Hl Ho. rewrite (visitor_parallel_eq p tid t w c Hw Hl Ho).
  cbn [fst snd]. destruct (match exc_ t with Some _ => true | None => closed w end);
    cbn; rewrite ?app_nil_r; auto 6.
Qed.

Lemma visitor_parallel_bookkeeping_witness :
  let t := sample_task 0 None true in
  snd (queue_feeder_visitor 0 1 (sample_pool 2 t)) = Ok true /\
  tasks (fst (queue_feeder_visitor 0 1 (sample_pool 2 t))) = tasks (sample_pool 2 t) /\
  workers (fst (queue_feeder_visitor 0 1 (sample_pool 2 t))) = workers (sample_pool 2 t) /\
  nodes (fst (queue_feeder_visitor 0 1 (sample_pool 2 t))) = nodes (sample_pool 2 t) /\
  edges (fst (queue_feeder_visitor 0 1 (sample_pool 2 t))) = edges (sample_pool 2 t) /\
  consumed (fst (queue_feeder_visitor 0 1 (sample_pool 2 t))) =
    consumed (sample_pool 2 t) ++
      (if match exc_ t with Some _ => true | None => closed (mkWChan [] true) end
       then [0%nat] else []).
Proof.
  intros t. apply (visitor_parallel_bookkeeping _ _ t); [discriminate|reflexivity|reflexivity].
Defined.

(** In parallel mode a task whose output already buffers at least the
    demanded count (a demand of at least 1, after the [min_count]
    override) gets no job: the queue is left as it is. *)
Theorem visitor_buffered_no_job (p : pool) (tid : nat) (t : task)
    (w : wchan) (c : Z) :
  workers p <> 0%nat -> tasks p !! tid = Some t -> out_wc t = Some w ->
  let c' := match min_count t with Some m => m | None => c end in
  1 <= c' <= chan_size w ->
  queue (fst (queue_feeder_visitor tid c p)) = queue p.
Proof.
  intros Hw Hl Ho c' Hc. rewrite (visitor_parallel_eq p tid t w c Hw Hl Ho).
  fold c'. cbn [fst queue set_queue].
  assert (H1 : (c' <? 1) = false) by (apply Z.ltb_ge; lia).
  assert (H2 : (chan_size w <? c') = false) by (apply Z.ltb_ge; lia).
  rewrite H1, H2. cbn. apply app_nil_r.
Qed.

Lemma visitor_buffered_no_job_witness :
  let t := mkTask [] None (Some (mkWChan [PInt 7; PInt 8] false)) true None
             identity_fun None 0 true in
  (1 <= 2 <= chan_size (mkWChan [PInt 7; PInt 8] false)) /\
  queue (fst (queue_feeder_visitor 0 2 (sample_pool 1 t))) = queue (sample_pool 1 t).
Proof.
  intros t. split; [unfold chan_size; cbn; lia|].
  exact (visitor_buffered_no_job (sample_pool 1 t) 0 t _ 2
           ltac:(discriminate) eq_refl eq_refl ltac:(unfold chan_size; cbn; lia)).
Defined.

(** In parallel mode, a task without a chunk size ([max_chunksize = 0])
    that needs work (a demand below 1, or more than its output buffers)
    gets exactly one job, for the whole demand. *)
Theorem visitor_unchunked_job (p : pool) (tid : nat) (t : task)
    (w : wchan) (c : Z) :
  workers p <> 0%nat -> tasks p !! tid = Some t -> out_wc t = Some w ->
  max_chunksize t = 0 ->
  let c' := match min_count t with Some m => m | None => c end in
  c' < 1 \/ chan_size w < c' ->
  queue (fst (queue_feeder_visitor tid c p)) = queue p ++ [(tid, c')].
Proof.
  intros Hw Hl Ho Hk c' Hc. rewrite (visitor_parallel_eq p tid t w c Hw Hl Ho).
  fold c'. cbn [fst queue set_queue]. rewrite Hk.
  assert (Hs : ((c' <? 1) || (chan_size w <? c'))%bool = true).
  { destruct Hc as [Hc|Hc]; apply orb_true_iff; [left|right]; apply Z.ltb_lt; exact Hc. }
  rewrite Hs. reflexivity.
Qed.

Lemma visitor_unchunked_job_witness :
  let t := sample_task 0 None false in
  (0 < 1 \/ chan_size (mkWChan [] false) < 0) /\
  queue (fst (queue_feeder_visitor 0 0 (sample_pool 1 t))) = [] ++ [(0%nat, 0)].
Proof.
  intros t. split; [left; lia|].
  exact (visitor_unchunked_job (sample_pool 1 t) 0 t _ 0
           ltac:(discriminate) eq_refl eq_refl eq_refl ltac:(left; cbn; lia)).
Defined.

(** In parallel mode, a task with a chunk size [k <> 0] that needs work
    gets [count / k] jobs, each of size [count / k] (floor division), then
    one job of size [count mod k] when that is not zero. *)
Theorem visitor_chunked_jobs (p : pool) (tid : nat) (t : task)
    (w : wchan) (c : Z) :
  workers p <> 0%nat -> tasks p !! tid = Some t -> out_wc t = Some w ->
  let k := max_chunksize t in
  let c' := match min_count t with Some m => m | None => c end in
  k <> 0 -> c' < 1 \/ chan_size w < c' ->
  queue (fst (queue_feeder_visitor tid c p)) =
  queue p ++ repeat (tid, c' / k) (Z.to_nat (c' / k)) ++
    (if c' mod k =? 0 then [] else [(tid, c' mod k)]).
Proof.
  intros Hw Hl Ho k c' Hk Hc. rewrite (visitor_parallel_eq p tid t w c Hw Hl Ho).
  fold c' k. cbn [fst queue set_queue].
  assert (Hs : ((c' <? 1) || (chan_size w <? c'))%bool = true).
  { destruct Hc as [Hc|Hc]; apply orb_true_iff; [left|right]; apply Z.ltb_lt; exact Hc. }
  rewrite Hs.
  assert (Hk' : (k =? 0) = false) by (apply Z.eqb_neq; exact Hk).
  assert (Hm : c' - c' / k * k = c' mod k) by (rewrite Z.mod_eq by exact Hk; ring).
  rewrite Hk', Hm. cbn [negb]. destruct (c' mod k =? 0); reflexivity.
Qed.

Lemma visitor_chunked_jobs_witness :
  let t := sample_task 3 None false in
  (3 <> 0 /\ (7 < 1 \/ chan_size (mkWChan [] false) < 7)) /\
  queue (fst (queue_feeder_visitor 0 7 (sample_pool 1 t))) =
  [] ++ repeat (0%nat, 7 / 3) (Z.to_nat (7 / 3)) ++
    (if 7 mod 3 =? 0 then [] else [(0%nat, 7 mod 3)]).
Proof.
  intros t. split; [split; [lia|right; unfold chan_size; cbn; lia]|].
  exact (visitor_chunked_jobs (sample_pool 1 t) 0 t _ 7
           ltac:(discriminate) eq_refl eq_refl ltac:(unfold chan_size; cbn; lia)
           ltac:(right; unfold chan_size; cbn; lia)).
Defined.

(** In parallel mode a demand of 0 ("read everything") on a task with a
    positive chunk size enqueues no job at all: [0 / k] chunks and no
    remainder. *)
Theorem visitor_read_all_chunked_no_job (p : pool) (tid : nat) (t : task)
    (w : wchan) (c : Z) :
  workers p <> 0%nat -> tasks p !! tid = Some t -> out_wc t = Some w ->
  max_chunksize t <> 0 ->
  match min_count t with Some m => m | None => c end = 0 ->
  queue (fst (queue_feeder_visitor tid c p)) = queue p.
Proof.
  intros Hw Hl Ho Hk Hc.
  rewrite (visitor_chunked_jobs p tid t w c Hw Hl Ho Hk) by (left; lia).
  rewrite Hc, Z.div_0_l, Z.mod_0_l by exact Hk. cbn. apply app_nil_r.
Qed.

Lemma visitor_read_all_chunked_no_job_witness :
  let t := sample_task 2 None false in
  queue (fst (queue_feeder_visitor 0 0 (sample_pool 1 t))) = [].
Proof.
  intros t.
  exact (visitor_read_all_chunked_no_job (sample_pool 1 t) 0 t _ 0
           ltac:(discriminate) eq_refl eq_refl ltac:(unfold chan_size; cbn; lia) eq_refl).
Defined.

(** With no worker threads the visitor runs [process] on the task itself,
    with the demand after the [min_count] override, and enqueues nothing;
    when [fun] raises only exceptions deriving from [Exception] it then
    returns [True], with the processed task stored in place of the old one. *)
Theorem visitor_serial (p : pool) (tid : nat) (t : task) (w : wchan) (c : Z) :
  workers p = 0%nat -> tasks p !! tid = Some t -> out_wc t = Some w ->
  in_src t = None \/ pool_ref t = true -> fun_raises_Exception (fun_ t) ->
  let c' := match min_count t with Some m => m | None => c end in
  exists t', process c' t = (t', Ok tt) /\
    snd (queue_feeder_visitor tid c p) = Ok true /\
    tasks (fst (queue_feeder_visitor tid c p)) = <[tid := t']> (tasks p) /\
    queue (fst (queue_feeder_visitor tid c p)) = queue p /\
    consumed (fst (queue_feeder_visitor tid c p)) =
      consumed p ++ (if match exc_ t with Some _ => true | None => closed w end
                     then [tid] else []).
Proof.
  intros Hw Hl Ho Hrd Hf c'.
  destruct (process_never_raises t c' ltac:(congruence) Hrd Hf) as [t' [Hp _]].
  exists t'. split; [exact Hp|].
  rewrite (visitor_prefix p tid t w c Hl Ho). fold c'.
  set (p1 := if match exc_ t with Some _ => true | None => closed w end
             then set_consumed (consumed p ++ [tid]) p else p).
  assert (Hp1 : tasks p1 = tasks p /\ workers p1 = workers p /\
                queue p1 = queue p /\
                consumed p1 = consumed p ++
                  (if match exc_ t with Some _ => true | None => closed w end
                   then [tid] else [])).
  { unfold p1. destruct (match exc_ t with Some _ => true | None => closed w end);
      cbn; rewrite ?app_nil_r; auto. }
  destruct Hp1 as [Ht1 [Hw1 [Hq1 Hc1]]].
  rewrite bool_decide_false by (rewrite Hw1, Hw; auto).
  assert (Ha : at_task tid (process c') p1 =
               (set_tasks (<[tid := t']> (tasks p1)) p1, Ok tt)).
  { unfold at_task. rewrite Ht1, Hl, Hp. reflexivity. }
  rewrite (bind_ok _ _ p1 _ tt) by exact Ha.
  cbn. rewrite Ht1. auto.
Qed.

Lemma visitor_serial_witness :
  let t := sample_task 0 None false in
  exists t', process 1 t = (t', Ok tt) /\
    snd (queue_feeder_visitor 0 1 (sample_pool 0 t)) = Ok true /\
    tasks (fst (queue_feeder_visitor 0 1 (sample_pool 0 t))) =
      <[0%nat := t']> (tasks (sample_pool 0 t)) /\
    queue (fst (queue_feeder_visitor 0 1 (sample_pool 0 t))) = queue (sample_pool 0 t) /\
    consumed (fst (queue_feeder_visitor 0 1 (sample_pool 0 t))) =
      consumed (sample_pool 0 t) ++
        (if match exc_ t with Some _ => true | None => closed (mkWChan [] false) end
         then [0%nat] else []).
Proof.
  intros t. exact (visitor_serial (sample_pool 0 t) 0 t _ 1 eq_refl eq_refl eq_refl
                     (or_introl eq_refl) (fun v e H => match H with eq_refl => I end)).
Defined.

(** ** add_task *)

(** [add_task] always raises a TypeError, at [weakref.ref(self)].  By then
    it has bound a fresh, open and empty output channel to the task object,
    so the task answers [is_done()] with [False]; its [_pool_ref] is left
    as it was.  The task is not added to the graph: no node and no edge,
    and the other tasks, the queue, the consumed list and the workers are
    left as they are. *)
Theorem add_task_raises (p : pool) (tid : nat) (t : task) :
  let p' := fst (add_task tid t p) in
  snd (add_task tid t p) = Raise TypeError /\
  at_task tid is_done p' = (p', Ok false) /\
  tasks p' !! tid = Some (set_out_wc (Some (mkWChan [] false)) t) /\
  pool_ref (set_out_wc (Some (mkWChan [] false)) t) = pool_ref t /\
  (forall tid', tid' <> tid -> tasks p' !! tid' = tasks p !! tid') /\
  nodes p' = nodes p /\ edges p' = edges p /\
  queue p' = queue p /\ consumed p' = consumed p /\ workers p' = workers p.
Proof.
  intros p'. subst p'. cbn [add_task modify throw mbind M_bind fst snd].
  split; [reflexivity|]. split.
  - apply (at_task_getter _ _ _ (set_out_wc (Some (mkWChan [] false)) t)).
    + cbn. apply lookup_insert_eq.
    + reflexivity.
  - split; [cbn; apply lookup_insert_eq|].
    split; [reflexivity|].
    split; [intros tid' Hne; cbn; apply lookup_insert_ne; congruence|].
    cbn. auto 6.
Qed.

(** A task whose input is a read channel of a pool cannot be processed
    after [add_task]: [add_task] never sets [_pool_ref], so [process]
    raises a TypeError at [self._pool_ref()] before it reads anything, and
    the pool is left as it was. *)
Theorem add_task_then_process (p : pool) (tid : nat) (t : task) (count : Z) :
  pool_ref t = false -> in_src t <> None ->
  let p' := fst (add_task tid t p) in
  at_task tid (process count) p' = (p', Raise TypeError).
Proof.
  intros Hr Hs p'.
  pose proof (add_task_raises p tid t) as [_ [_ [Hl _]]]. fold p' in Hl.
  apply (at_task_getter _ _ _ _ _ Hl).
  unfold process.
  rewrite (bind_ok _ _ _ (set_out_wc (Some (mkWChan [] false)) t)
             (set_out_wc (Some (mkWChan [] false)) t)) by reflexivity.
  cbn [out_wc set_out_wc]. apply bind_raise.
  unfold choose_read. cbn [in_src pool_ref set_out_wc].
  destruct (in_src t); [|congruence]. rewrite Hr. reflexivity.
Qed.

Lemma add_task_then_process_witness :
  let t := new_task [PInt 1] (Some 1%nat) identity_fun true in
  at_task 0 (process 1) (fst (add_task 0 t (ThreadPool_init 0)))
  = (fst (add_task 0 t (ThreadPool_init 0)), Raise TypeError).
Proof.
  intros t. exact (add_task_then_process (ThreadPool_init 0) 0 t 1
                     eq_refl ltac:(discriminate)).
Defined.

(** ** RPoolChannel.read *)

(** A [post_cb] that raises makes [read] raise the same exception, after
    the [pre_cb] (if one is installed and returns), the scheduling and the
    read of the underlying channel have taken place. *)
Theorem read_post_cb_raises {S} (prepare : nat -> Z -> M S unit)
    (raw : Z -> bool -> option Z -> M S (list pyobj))
    (ch : rpool_channel) (f : callable) (count : Z) (block : bool)
    (timeout : option Z) (s s1 s2 : S) (items : list pyobj) (e : exc) :
  match pre_cb ch with Some g => exists v, call g [] = Ok v | None => True end ->
  prepare (rc_task ch) count s = (s1, Ok tt) ->
  raw count block timeout s1 = (s2, Ok items) ->
  post_cb ch = Some f -> call f [PList items] = Raise e ->
  read prepare raw ch count block timeout s = (s2, Raise e).
Proof.
  intros Hpre Hp Hr Hpost Hc. unfold read.
  revert Hpre. destruct (pre_cb ch) as [g|]; intros Hpre.
  - destruct Hpre as [v Hv].
    rewrite (bind_ok _ _ s s tt)
      by (cbv [mbind M_bind lift mret M_ret]; rewrite Hv; reflexivity).
    rewrite (bind_ok _ _ s s1 tt) by exact Hp.
    rewrite (bind_ok _ _ s1 s2 items) by exact Hr.
    rewrite Hpost. cbv [mbind M_bind lift]. rewrite Hc. reflexivity.
  - rewrite (bind_ok _ _ s s tt) by reflexivity.
    rewrite (bind_ok _ _ s s1 tt) by exact Hp.
    rewrite (bind_ok _ _ s1 s2 items) by exact Hr.
    rewrite Hpost. cbv [mbind M_bind lift]. rewrite Hc. reflexivity.
Qed.

Lemma read_post_cb_raises_witness :
  let g := mkCallable 0 (fun _ => Ok PNone) in
  let f := mkCallable 1 (fun _ => Raise (UserError 3)) in
  let ch := mkRPoolChannel 0 (Some g) (Some f) in
  read (fun _ _ => modify (fun n : nat => S n)) (fun _ _ _ => mret [PInt 1])
    ch 1 false None 0%nat = (1%nat, Raise (UserError 3)).
Proof.
  intros g f ch.
  exact (read_post_cb_raises (fun _ _ => modify (fun n : nat => S n))
           (fun _ _ _ => mret [PInt 1]) ch f 1 false None 0%nat 1%nat 1%nat
           [PInt 1] (UserError 3) (ex_intro _ PNone eq_refl)
           eq_refl eq_refl eq_refl eq_refl).
Defined.

(** ** The scheduling walk *)

Lemma visitor_list_parallel (l : list nat) (count : Z) (p : pool) :
  workers p <> 0%nat ->
  Forall (fun n => exists t w, tasks p !! n = Some t /\ out_wc t = Some w) l ->
  exists p' js cs,
    for_each l (fun n => queue_feeder_visitor n count ;; mret tt) p = (p', Ok tt) /\
    tasks p' = tasks p /\ workers p' = workers p /\ nodes p' = nodes p /\
    edges p' = edges p /\ queue p' = queue p ++ js /\ consumed p' = consumed p ++ cs.
Proof.
  revert p. induction l as [|n l IH]; intros p Hw Hl; cbn [for_each].
  - exists p, [], []. rewrite !app_nil_r. auto 7.
  - inversion Hl as [|? ? [t [w [Ht Ho]]] Hl']; subst.
    destruct (visitor_parallel_bookkeeping p n t w count Hw Ht Ho)
      as [Hr [Ht1 [Hw1 [Hn1 [He1 Hc1]]]]].
    pose proof (visitor_parallel_eq p n t w count Hw Ht Ho) as Hq.
    destruct (queue_feeder_visitor n count p) as [p1 r1] eqn:Hv.
    cbn [fst snd] in *. subst r1.
    destruct (IH p1) as [p' [js [cs [Hf [Ht' [Hw' [Hn' [He' [Hq' Hc']]]]]]]]].
    + congruence.
    + rewrite Ht1. exact Hl'.
    + rewrite (bind_ok _ _ p p1 tt).
      2: { rewrite (bind_ok _ _ p p1 true) by exact Hv. reflexivity. }
      assert (Hq1 : exists js1, queue p1 = queue p ++ js1).
      { injection Hq as Hq. rewrite Hq. eexists. reflexivity. }
      destruct Hq1 as [js1 Hq1].
      exists p', (js1 ++ js),
        ((if match exc_ t with Some _ => true | None => closed w end
          then [n] else []) ++ cs).
      split; [exact Hf|].
      rewrite Ht', Hw', Hn', He', Hq', Hc', Ht1, Hw1, Hn1, He1, Hc1, Hq1.
      rewrite <- !app_assoc. auto 7.
Qed.

(** In parallel mode the scheduling walk of [_prepare_processing] leaves
    every task object and the graph as they are and returns normally, when
    every visited task is registered and initialized; it only appends jobs
    to the queue and tasks to the consumed list. *)
Theorem prepare_walk_parallel (p : pool) (tid : nat) (count : Z) :
  workers p <> 0%nat ->
  Forall (fun n => exists t w, tasks p !! n = Some t /\ out_wc t = Some w)
    (dfs_order (S (length (nodes p))) (in_nodes p) tid []) ->
  exists p' js cs,
    prepare_walk tid count p = (p', Ok tt) /\
    tasks p' = tasks p /\ workers p' = workers p /\ nodes p' = nodes p /\
    edges p' = edges p /\ queue p' = queue p ++ js /\ consumed p' = consumed p ++ cs.
Proof.
  intros Hw Hl. unfold prepare_walk. exact (visitor_list_parallel _ count p Hw Hl).
Qed.

Lemma prepare_walk_parallel_witness :
  let p := sample_pool 1 (sample_task 0 None false) in
  Forall (fun n => exists t w, tasks p !! n = Some t /\ out_wc t = Some w)
    (dfs_order (S (length (nodes p))) (in_nodes p) 0 []) /\
  exists p' js cs,
    prepare_walk 0 1 p = (p', Ok tt) /\
    tasks p' = tasks p /\ workers p' = workers p /\ nodes p' = nodes p /\
    edges p' = edges p /\ queue p' = queue p ++ js /\ consumed p' = consumed p ++ cs.
Proof.
  intros p.
  assert (H : Forall (fun n => exists t w, tasks p !! n = Some t /\ out_wc t = Some w)
                (dfs_order (S (length (nodes p))) (in_nodes p) 0 [])).
  { vm_compute. constructor; [|constructor].
    exists (sample_task 0 None false), (mkWChan [] false). split; reflexivity. }
  split; [exact H|].
  exact (prepare_walk_parallel p 0 1 ltac:(discriminate) H).
Defined.
